(** * Route dispatch of the RoboSats frontend shell

    [frontend/src/components/HomePage.js] declares one component,
    [HomePage], whose [render] mounts a [BrowserRouter] around a [Switch]
    holding five [Route] elements.  The file itself is a route table; what the
    table means is fixed by the routing library it imports
    ([react-router-dom], the generation that exports [Switch]: releases 4 and
    5, which compile route paths with [path-to-regexp] 1.x).

    The development therefore has two layers.

    - [Module Router] embeds the part of the library the table exercises:
      [parse] and [exec] for the path patterns, [matchPath], [Route.render]
      and [Switch.render].
    - [Module HomePage] embeds the source file: the five route elements in
      their declared order and [render].

    A JavaScript string is modelled as a [string] of 8-bit characters; the
    only characters the patterns of the table inspect are ASCII. *)

From Stdlib Require Import Ascii String List Bool Arith Lia.
From stdpp Require Import base option strings gmap.

Import ListNotations.
Local Open Scope string_scope.
Local Open Scope list_scope.

(** ** The routing library *)

Module Router.

(** *** Characters *)

(** The compiled expressions carry the [i] flag ([sensitive] is left at its
    default [false]).  Without the [u] flag the engine compares
    [Canonicalize(ch)], the upper-case mapping of the code unit, except that a
    non-ASCII unit is never mapped onto an ASCII one.  Every literal of the
    route table is ASCII, so only the ASCII letters need folding: a unit from
    128 up never canonicalizes to the same value as a pattern character. *)
Definition canonicalize (c : ascii) : ascii :=
  let n := nat_of_ascii c in
  if ((97 <=? n) && (n <=? 122))%nat then ascii_of_nat (n - 32) else c.

Definition char_eq_i (a b : ascii) : bool :=
  Ascii.eqb (canonicalize a) (canonicalize b).

(** [\w] of the pattern grammar: [[A-Za-z0-9_]]. *)
Definition is_word (c : ascii) : bool :=
  let n := nat_of_ascii c in
  (((48 <=? n) && (n <=? 57)) || ((65 <=? n) && (n <=? 90))
   || (n =? 95) || ((97 <=? n) && (n <=? 122)))%nat.

(** Characters that start or modify a construct of the pattern grammar
    which the route table never uses: the backslash of escapes (code 92),
    the parentheses of custom groups (40, 41), the asterisk (42) and the
    question mark and plus modifiers (63, 43). *)
Definition is_special (c : ascii) : bool :=
  existsb (Nat.eqb (nat_of_ascii c)) [92; 40; 41; 42; 63; 43]%nat.

(** *** [path-to-regexp]: tokens *)

(** A parsed pattern is a sequence of literal stretches and named keys.  A
    key remembers the [prefix] it swallowed (["/"], ["."] or nothing) and its
    [delimiter], the character its default pattern [[^delimiter]+?] refuses. *)
Inductive token : Type :=
| Str (s : string)
| Key (name : string) (prefix : string) (delimiter : ascii).

Definition push (path : string) (tokens : list token) : list token :=
  if String.eqb path "" then tokens else Str path :: tokens.

Definition delimiter_of (prefix : string) : ascii :=
  match prefix with
  | String c _ => c
  | EmptyString => "/"%char
  end.

(** [parse str]: the token list of a pattern.  [path] is the literal
    stretch collected so far.  At each position the grammar looks for an
    optional prefix character, a colon and a non-empty run of word
    characters; anything else is literal text.  Patterns that use the rest of
    the grammar are rejected ([None]). *)
Fixpoint parse_from (str : string) (path : string) {struct str}
  : option (list token) :=
  let name_of (prefix : string) :=
    fix name (s : string) (nm : string) {struct s} : option (list token) :=
      match s with
      | EmptyString => Some (push path [Key nm prefix (delimiter_of prefix)])
      | String d s' =>
          if is_word d then name s' (nm +:+ String d "")
          else
            match parse_from s "" with
            | Some tokens =>
                Some (push path (Key nm prefix (delimiter_of prefix) :: tokens))
            | None => None
            end
      end in
  match str with
  | EmptyString => Some (push path [])
  | String c rest =>
      if is_special c then None
      else
        match rest with
        | String w _ =>
            if Ascii.eqb c ":" && is_word w then name_of "" rest ""
            else
              match rest with
              | String colon (String w' _ as after) =>
                  if (Ascii.eqb c "/" || Ascii.eqb c ".")
                     && Ascii.eqb colon ":" && is_word w'
                  then name_of (String c "") after ""
                  else parse_from rest (path +:+ String c "")
              | _ => parse_from rest (path +:+ String c "")
              end
        | EmptyString => parse_from rest (path +:+ String c "")
        end
  end.

Definition parse (str : string) : option (list token) := parse_from str "".

(** *** [path-to-regexp]: the compiled expression *)

(** [tokensToRegExp] assembles one anchored regular expression from the
    tokens.  The model keeps its ingredients instead of its text:

    - every [Str] is matched literally, a [Key] as its prefix followed by the
      capturing group [((?:[^delimiter]+?))];
    - unless [strict], a delimiter that ends the expression is dropped
      ([endsWithDelimiter]) and [(?:\/(?=$))?] is appended;
    - with [end] the expression closes with [$], otherwise with the
      lookahead [(?=\/|$)] (omitted when [strict] and [endsWithDelimiter]);
    - the [i] flag is set unless [sensitive]. *)
Record regexp : Type := {
  re_tokens : list token;
  re_endsWithDelimiter : bool;
  re_end : bool;
  re_strict : bool;
  re_sensitive : bool
}.

Fixpoint ends_with_slash (s : string) : bool :=
  match s with
  | EmptyString => false
  | String c EmptyString => Ascii.eqb c "/"
  | String _ rest => ends_with_slash rest
  end.

Fixpoint drop_last (s : string) : string :=
  match s with
  | EmptyString => EmptyString
  | String _ EmptyString => EmptyString
  | String c rest => String c (drop_last rest)
  end.

Fixpoint endsWithDelimiter (tokens : list token) : bool :=
  match tokens with
  | [] => false
  | [Str s] => ends_with_slash s
  | [Key _ _ _] => false
  | _ :: rest => endsWithDelimiter rest
  end.

(** [route.slice(0, -delimiter.length)] on the token list. *)
Fixpoint strip_delimiter (tokens : list token) : list token :=
  match tokens with
  | [] => []
  | [Str s] => [Str (drop_last s)]
  | t :: rest => t :: strip_delimiter rest
  end.

Definition tokensToRegExp (tokens : list token) (end_ strict sensitive : bool)
  : regexp :=
  let ewd := endsWithDelimiter tokens in
  {| re_tokens := if negb strict && ewd then strip_delimiter tokens else tokens;
     re_endsWithDelimiter := ewd;
     re_end := end_;
     re_strict := strict;
     re_sensitive := sensitive |}.

Definition keys (tokens : list token) : list string :=
  flat_map (fun t => match t with Key name _ _ => [name] | Str _ => [] end)
           tokens.

(** *** [RegExp.prototype.exec] on a compiled expression *)

Definition char_eq (sensitive : bool) (a b : ascii) : bool :=
  if sensitive then Ascii.eqb a b else char_eq_i a b.

(** Literal text [lit] at the head of [input]: the text consumed and the
    rest of the input. *)
Fixpoint match_literal (sensitive : bool) (lit input : string)
  : option (string * string) :=
  match lit with
  | EmptyString => Some (EmptyString, input)
  | String l lit' =>
      match input with
      | EmptyString => None
      | String c input' =>
          if char_eq sensitive l c then
            match match_literal sensitive lit' input' with
            | Some (got, rest) => Some (String c got, rest)
            | None => None
            end
          else None
      end
  end.

(** [[^delimiter]+?] followed by the continuation [k]: the shortest
    non-empty run of non-delimiter characters after which [k] succeeds.
    [acc] is the run consumed so far. *)
Fixpoint lazy_capture {R : Type} (sensitive : bool) (delimiter : ascii)
    (k : string -> option R) (acc input : string) : option (string * R) :=
  match input with
  | EmptyString => None
  | String c rest =>
      if char_eq sensitive delimiter c then None
      else
        let acc' := acc +:+ String c "" in
        match k rest with
        | Some r => Some (acc', r)
        | None => lazy_capture sensitive delimiter k acc' rest
        end
  end.

(** The closing part of the expression, at the input left over once all
    tokens are matched: the text it consumes. *)
Definition at_boundary (input : string) : bool :=
  match input with
  | EmptyString => true
  | String c _ => Ascii.eqb c "/"
  end.

Definition closing (re : regexp) (input : string) : option string :=
  let finish (rest : string) : bool :=
    if re_end re then String.eqb rest ""
    else if re_strict re && re_endsWithDelimiter re then true
    else at_boundary rest in
  if negb (re_strict re) && String.eqb input "/" && finish "" then Some "/"
  else if finish input then Some ""
  else None.

(** The tokens in sequence, then [closing]: the matched text and the
    captured values, in key order. *)
Fixpoint exec_tokens (re : regexp) (tokens : list token) (input : string)
  : option (string * list string) :=
  match tokens with
  | [] =>
      match closing re input with
      | Some got => Some (got, [])
      | None => None
      end
  | Str s :: tokens' =>
      match match_literal (re_sensitive re) s input with
      | Some (got, rest) =>
          match exec_tokens re tokens' rest with
          | Some (got', values) => Some (got +:+ got', values)
          | None => None
          end
      | None => None
      end
  | Key _ prefix delimiter :: tokens' =>
      match match_literal (re_sensitive re) prefix input with
      | Some (got, rest) =>
          match lazy_capture (re_sensitive re) delimiter
                             (exec_tokens re tokens') "" rest with
          | Some (value, (got', values)) =>
              Some (got +:+ value +:+ got', value :: values)
          | None => None
          end
      | None => None
      end
  end.

Definition exec (re : regexp) (input : string)
  : option (string * list string) :=
  exec_tokens re (re_tokens re) input.

(** *** [react-router]: [matchPath] *)

(** A host element with text content, such as [<p>text</p>]. *)
Inductive node : Type :=
| Element (tag : string) (text : string).

Record location : Type := {
  pathname : string;
  search : string;
  hash : string
}.

Record match_ : Type := {
  path : string;
  url : string;
  isExact : bool;
  params : gmap string string
}.

(** The properties of a [<Route>] element that take part in matching and
    rendering. *)
Record RouteProps (component : Type) : Type := {
  route_path : string;
  exact : bool;
  strict : bool;
  sensitive : bool;
  route_component : option component;
  route_children : option node
}.
Arguments route_path {component} _.
Arguments exact {component} _.
Arguments strict {component} _.
Arguments sensitive {component} _.
Arguments route_component {component} _.
Arguments route_children {component} _.

(** [compilePath]: parse the pattern and compile it with [end := exact]. *)
Definition compilePath (pattern : string) (end_ strict sensitive : bool)
  : option (regexp * list string) :=
  match parse pattern with
  | Some tokens =>
      Some (tokensToRegExp tokens end_ strict sensitive, keys tokens)
  | None => None
  end.

(** [keys.reduce((memo, key, index) => { memo[key.name] = values[index];
    return memo }, {})]. *)
Fixpoint bind_params (names values : list string) (memo : gmap string string)
  : gmap string string :=
  match names, values with
  | name :: names', value :: values' =>
      bind_params names' values' (<[name := value]> memo)
  | _, _ => memo
  end.

(** [matchPath(pathname, { path, exact, strict, sensitive })] for a single
    string [path].  [None] is the library's [null]; a pattern outside the
    modelled grammar also gives [None], which [routes_compile] below rules
    out for the table of this program. *)
Definition matchPath (pathname : string) (pattern : string)
    (exact strict sensitive : bool) : option match_ :=
  match compilePath pattern exact strict sensitive with
  | None => None
  | Some (re, names) =>
      match exec re pathname with
      | None => None
      | Some (matched, values) =>
          let is_exact := String.eqb pathname matched in
          if exact && negb is_exact then None
          else
            Some {| path := pattern;
                    url := if String.eqb pattern "/" && String.eqb matched ""
                           then "/" else matched;
                    isExact := is_exact;
                    params := bind_params names values ∅ |}
      end
  end.

(** [Router.computeRootMatch]: the match a path-less route inherits. *)
Definition computeRootMatch (pathname : string) : match_ :=
  {| path := "/"; url := "/"; isExact := String.eqb pathname "/";
     params := ∅ |}.

(** *** [react-router]: [Switch] and [Route] *)

Section Rendering.

Context {component : Type}.

(** What a matched [<Route>] hands back: its children as they are, or an
    element of its [component] created with the route props, of which the
    model keeps [location] and [match] ([history] and [staticContext] are
    left out). *)
Inductive rendered : Type :=
| Children (n : node)
| CreateElement (c : component) (loc : location) (m : match_).

(** The match [Switch] computes for one child:
    [path ? matchPath(location.pathname, { ...child.props, path })
          : context.match].
    A child without a path inherits the router's root match.  The [from] of
    a [<Redirect>] child is not modelled: the children here are [<Route>]
    elements. *)
Definition child_match (child : RouteProps component) (loc : location)
  : option match_ :=
  if String.eqb (route_path child) "" then
    Some (computeRootMatch (pathname loc))
  else matchPath (pathname loc) (route_path child)
                 (exact child) (strict child) (sensitive child).

(** [Switch.render]: the first child whose path matches the location is
    cloned with [computedMatch]; later children are not looked at.  [None]
    is [null]: nothing is rendered. *)
Fixpoint Switch (children : list (RouteProps component)) (loc : location)
  : option (RouteProps component * match_) :=
  match children with
  | [] => None
  | child :: rest =>
      match child_match child loc with
      | Some computedMatch => Some (child, computedMatch)
      | None => Switch rest loc
      end
  end.

(** [Route.render] with a match: children win over [component]; a route
    with neither renders nothing. *)
Definition Route (props : RouteProps component) (loc : location)
    (computedMatch : match_) : option rendered :=
  match route_children props with
  | Some n => Some (Children n)
  | None =>
      match route_component props with
      | Some c => Some (CreateElement c loc computedMatch)
      | None => None
      end
  end.

End Rendering.

Arguments rendered : clear implicits.

End Router.

(** ** The source file *)

Module HomePage.

Import Router.

(** The page collaborators imported by the file. *)
Inductive component : Type :=
| UserGenPage
| MakerPage
| BookPage
| OrderPage.

Definition route (exact_ : bool) (pattern : string)
    (c : option component) (children : option node)
  : RouteProps component :=
  {| route_path := pattern; exact := exact_; strict := false;
     sensitive := false; route_component := c; route_children := children |}.

(** The children of [<Switch>], in the order the file lists them. *)
Definition routes : list (RouteProps component) :=
  [ route true "/" (Some UserGenPage) None;
    route false "/home" None
          (Some (Element "p" "You are at the start page"));
    route false "/make" (Some MakerPage) None;
    route false "/book" (Some BookPage) None;
    route false "/order/:orderId" (Some OrderPage) None ].

(** [HomePage.render] under a router whose current location is [loc]. *)
Definition render (loc : location) : option (rendered component) :=
  match Switch routes loc with
  | Some (child, computedMatch) => Route child loc computedMatch
  | None => None
  end.

(** A location with the given path and no query or fragment. *)
Definition at_path (p : string) : location :=
  {| pathname := p; search := ""; hash := "" |}.

End HomePage.

Import Router HomePage.

(** ** Facts about the matcher *)

(** A path segment: non-empty and free of the delimiter. *)
Fixpoint no_slash (s : string) : bool :=
  match s with
  | EmptyString => true
  | String c s' => negb (Ascii.eqb c "/") && no_slash s'
  end.

Definition is_segment (s : string) : bool :=
  negb (String.eqb s "") && no_slash s.

(** Equality of two texts up to the case of ASCII letters. *)
Fixpoint eq_i (a b : string) : bool :=
  match a, b with
  | EmptyString, EmptyString => true
  | String x a', String y b' => char_eq_i x y && eq_i a' b'
  | _, _ => false
  end.


(** The second character of a text, up to case: what tells the patterns
    of the table apart. *)
Definition second_letter (p : string) : option ascii :=
  match p with
  | String _ (String b _) => Some (canonicalize b)
  | _ => None
  end.

(** What a user sees of an output: the child node, or the page and the
    parameters it was given; the location and the rest of the match are
    dropped. *)
Inductive shown : Type :=
| ShowText (n : node)
| ShowPage (c : component) (bound : gmap string string).

Definition shown_of (out : rendered component) : shown :=
  match out with
  | Children n => ShowText n
  | CreateElement c _ m => ShowPage c (params m)
  end.

(** ** The matcher on sample paths *)

Example parse_order :
  parse "/order/:orderId" = Some [Str "/order"; Key "orderId" "/" "/"].
Proof. reflexivity. Qed.

Example match_home_any_case :
  matchPath "/HOME" "/home" false false false =
  Some {| path := "/home"; url := "/HOME"; isExact := true; params := ∅ |}.
Proof. reflexivity. Qed.

Example match_home_trailing_delimiter :
  matchPath "/home/" "/home" false false false =
  Some {| path := "/home"; url := "/home/"; isExact := true; params := ∅ |}.
Proof. reflexivity. Qed.

Example match_home_deeper :
  matchPath "/home//x" "/home" false false false =
  Some {| path := "/home"; url := "/home"; isExact := false; params := ∅ |}.
Proof. reflexivity. Qed.

Example match_home_longer_word :
  matchPath "/homework" "/home" false false false = None.
Proof. reflexivity. Qed.

Example match_order_deeper :
  matchPath "/order/42/detail" "/order/:orderId" false false false =
  Some {| path := "/order/:orderId"; url := "/order/42"; isExact := false;
          params := {[ "orderId" := "42" ]} |}.
Proof. reflexivity. Qed.

Example match_order_empty_segment :
  matchPath "/order//42" "/order/:orderId" false false false = None.
Proof. reflexivity. Qed.

Example render_unknown : render (at_path "/profile") = None.
Proof. reflexivity. Qed.

Section Characters.

Lemma char_eq_i_slash (c : ascii) : char_eq_i "/" c = Ascii.eqb "/" c.
Proof.
  destruct c as [[] [] [] [] [] [] [] []]; reflexivity.
Qed.

Lemma char_eq_i_refl (c : ascii) : char_eq_i c c = true.
Proof. unfold char_eq_i. apply Ascii.eqb_refl. Qed.

Lemma eq_i_refl (s : string) : eq_i s s = true.
Proof.
  induction s as [|c s IH]; simpl; [reflexivity|].
  now rewrite char_eq_i_refl, IH.
Qed.

End Characters.

Section Literals.

Lemma match_literal_app (lit pre rest : string) :
  eq_i lit pre = true ->
  match_literal false lit (pre +:+ rest) = Some (pre, rest).
Proof.
  revert pre. induction lit as [|l lit IH]; intros [|c pre] H; simpl in *;
    try discriminate; [reflexivity|].
  apply andb_true_iff in H as [Hc Hs].
  rewrite Hc, (IH _ Hs). reflexivity.
Qed.

Lemma match_literal_inv (lit p pre rest : string) :
  match_literal false lit p = Some (pre, rest) ->
  p = pre +:+ rest /\ eq_i lit pre = true.
Proof.
  revert p pre rest. induction lit as [|l lit IH]; intros p pre rest H.
  - simpl in H. injection H as <- <-. split; reflexivity.
  - destruct p as [|c p]; simpl in H; [discriminate|].
    destruct (char_eq_i l c) eqn:Hc; [|discriminate].
    destruct (match_literal false lit p) as [[got r]|] eqn:Hm; [|discriminate].
    injection H as <- <-. destruct (IH _ _ _ Hm) as [-> Hi].
    split; [reflexivity|]. simpl. now rewrite Hc, Hi.
Qed.

End Literals.

Section MatchPath.

Lemma ends_with_slash_not_root (lit : string) :
  ends_with_slash lit = false -> String.eqb lit "/" = false.
Proof.
  intros H. destruct (String.eqb_spec lit "/") as [->|]; [discriminate|reflexivity].
Qed.

(** The closing part of a non-exact, non-strict expression. *)
Lemma closing_open (tokens : list token) (input : string) :
  closing (tokensToRegExp tokens false false false) input =
  if at_boundary input
  then Some (if String.eqb input "/" then "/" else "")
  else None.
Proof.
  unfold closing; cbn.
  destruct input as [|c [|d input]]; cbn; try reflexivity.
  - destruct (Ascii.eqb_spec c "/") as [->|Hc]; [reflexivity|].
    destruct (String.eqb_spec (String c "") "/") as [E|_]; [|reflexivity].
    congruence.
  - destruct (Ascii.eqb c "/"); reflexivity.
Qed.

(** A route whose pattern is plain text, matched without [exact]. *)
Lemma matchPath_literal (lit p : string) :
  parse lit = Some [Str lit] ->
  ends_with_slash lit = false ->
  matchPath p lit false false false =
  match match_literal false lit p with
  | Some (pre, rest) =>
      if at_boundary rest then
        let matched := pre +:+ (if String.eqb rest "/" then "/" else "") in
        Some {| path := lit; url := matched; isExact := String.eqb p matched;
                params := ∅ |}
      else None
  | None => None
  end.
Proof.
  intros Hparse Hend.
  unfold matchPath, compilePath. rewrite Hparse.
  unfold exec.
  assert (Htok : re_tokens (tokensToRegExp [Str lit] false false false)
                 = [Str lit]).
  { unfold tokensToRegExp; cbn. now rewrite Hend. }
  rewrite Htok. cbn [exec_tokens re_sensitive tokensToRegExp].
  destruct (match_literal false lit p) as [[pre rest]|]; [|reflexivity].
  rewrite closing_open.
  destruct (at_boundary rest); [|reflexivity].
  cbn. rewrite (ends_with_slash_not_root _ Hend). reflexivity.
Qed.

(** The root route: [exact] with pattern ["/"]. *)
Lemma matchPath_root (p : string) :
  matchPath p "/" true false false =
  if String.eqb p "" || String.eqb p "/"
  then Some {| path := "/"; url := "/"; isExact := true; params := ∅ |}
  else None.
Proof.
  unfold matchPath.
  replace (compilePath "/" true false false)
    with (Some ({| re_tokens := [Str ""]; re_endsWithDelimiter := true;
                   re_end := true; re_strict := false;
                   re_sensitive := false |}, @nil string))
    by reflexivity.
  unfold exec. cbn -[closing]. unfold closing.
  destruct p as [|c [|d p]]; cbn; try reflexivity.
  - destruct (Ascii.eqb_spec c "/") as [->|Hc]; cbn; reflexivity.
  - destruct (Ascii.eqb c "/"); reflexivity.
Qed.

Lemma append_snoc (a b : string) (c : ascii) :
  (a +:+ String c "") +:+ b = a +:+ String c b.
Proof.
  induction a as [|x a IH]; [reflexivity|].
  change (String x ((a +:+ String c "") +:+ b) = String x (a +:+ String c b)).
  now rewrite IH.
Qed.

(** The lazy capture takes a whole segment when its continuation accepts
    the input after the segment and refuses to start inside one. *)
Lemma lazy_capture_segment {R : Type} (k : string -> option R)
    (X acc rest : string) (r : R) :
  is_segment X = true ->
  k rest = Some r ->
  (forall c s, Ascii.eqb c "/" = false -> k (String c s) = None) ->
  lazy_capture false "/" k acc (X +:+ rest) = Some (acc +:+ X, r).
Proof.
  unfold is_segment. intros HX Hk Hin.
  apply andb_true_iff in HX as [Hne Hns].
  destruct X as [|c X]; [discriminate|clear Hne].
  revert c acc Hns. induction X as [|d X IH]; intros c acc Hns;
    simpl in Hns; apply andb_true_iff in Hns as [Hc Hns];
    apply negb_true_iff in Hc.
  - change (String c "" +:+ rest) with (String c rest).
    cbn [lazy_capture char_eq].
    rewrite char_eq_i_slash, Ascii.eqb_sym, Hc, Hk. reflexivity.
  - change (String c (String d X) +:+ rest)
      with (String c (String d X +:+ rest)).
    cbn [lazy_capture char_eq].
    rewrite char_eq_i_slash, Ascii.eqb_sym, Hc.
    change (String d X +:+ rest) with (String d (X +:+ rest)) at 1.
    rewrite Hin.
    + rewrite (IH d (acc +:+ String c "") Hns). now rewrite append_snoc.
    + simpl in Hns. apply andb_true_iff in Hns as [Hd _].
      now apply negb_true_iff in Hd.
Qed.

Lemma exec_tokens_nil_open (tokens : list token) (input : string) :
  exec_tokens (tokensToRegExp tokens false false false) [] input =
  if at_boundary input
  then Some (if String.eqb input "/" then "/" else "", [])
  else None.
Proof.
  cbn [exec_tokens]. rewrite closing_open.
  destruct (at_boundary input); reflexivity.
Qed.

Lemma exec_tokens_Str (re : regexp) (s : string) (tokens : list token)
    (input : string) :
  exec_tokens re (Str s :: tokens) input =
  match match_literal (re_sensitive re) s input with
  | Some (got, rest) =>
      match exec_tokens re tokens rest with
      | Some (got', values) => Some (got +:+ got', values)
      | None => None
      end
  | None => None
  end.
Proof. reflexivity. Qed.

Lemma exec_tokens_Key (re : regexp) (name prefix : string) (d : ascii)
    (tokens : list token) (input : string) :
  exec_tokens re (Key name prefix d :: tokens) input =
  match match_literal (re_sensitive re) prefix input with
  | Some (got, rest) =>
      match lazy_capture (re_sensitive re) d (exec_tokens re tokens)
                         "" rest with
      | Some (value, (got', values)) =>
          Some (got +:+ value +:+ got', value :: values)
      | None => None
      end
  | None => None
  end.
Proof. reflexivity. Qed.

Lemma match_literal_slash (s : string) :
  match_literal false "/" (String "/" s) = Some ("/", s).
Proof. reflexivity. Qed.

(** A route whose pattern is plain text followed by one key, matched
    without [exact]: the key is bound to the segment after the text. *)
Lemma matchPath_literal_key (lit name pre X rest : string) :
  parse (lit +:+ "/:" +:+ name) = Some [Str lit; Key name "/" "/"] ->
  eq_i lit pre = true ->
  is_segment X = true ->
  at_boundary rest = true ->
  let p := pre +:+ "/" +:+ X +:+ rest in
  let matched :=
    pre +:+ "/" +:+ X +:+ (if String.eqb rest "/" then "/" else "") in
  matchPath p (lit +:+ "/:" +:+ name) false false false =
  Some {| path := lit +:+ "/:" +:+ name; url := matched;
          isExact := String.eqb p matched;
          params := {[ name := X ]} |}.
Proof.
  intros Hparse Hlit HX Hrest p matched.
  unfold matchPath, compilePath. rewrite Hparse.
  set (re := tokensToRegExp [Str lit; Key name "/" "/"] false false false).
  assert (Hexec : exec re p = Some (matched, [X])).
  { unfold exec. change (re_tokens re) with [Str lit; Key name "/" "/"].
    rewrite exec_tokens_Str. change (re_sensitive re) with false.
    subst p. rewrite (match_literal_app _ _ _ Hlit).
    rewrite exec_tokens_Key. change (re_sensitive re) with false.
    change ("/" +:+ X +:+ rest) with (String "/" (X +:+ rest)).
    rewrite match_literal_slash.
    rewrite (lazy_capture_segment _ X "" rest
               (if String.eqb rest "/" then "/" else "", []) HX).
    - reflexivity.
    - subst re. rewrite exec_tokens_nil_open, Hrest. reflexivity.
    - intros c s Hc. subst re. rewrite exec_tokens_nil_open.
      cbn [at_boundary]. now rewrite Hc. }
  rewrite Hexec.
  cbn [andb negb keys flat_map app bind_params].
  replace (String.eqb (lit +:+ "/:" +:+ name) "/") with false.
  - reflexivity.
  - symmetry. destruct lit as [|a [|b lit]]; try reflexivity.
    + change (String a "" +:+ "/:" +:+ name)
        with (String a (String "/" (String ":" name))).
      cbn [String.eqb]. destruct (Ascii.eqb a "/"); reflexivity.
    + change (String a (String b lit) +:+ "/:" +:+ name)
        with (String a (String b (lit +:+ "/:" +:+ name))).
      cbn [String.eqb]. destruct (Ascii.eqb a "/"); reflexivity.
Qed.

End MatchPath.

(** ** Facts about [Switch] *)

Section SwitchFacts.

Context {component : Type}.
Implicit Types (children : list (RouteProps component)) (loc : location).

Lemma Switch_None children loc :
  Switch children loc = None <->
  Forall (fun child => child_match child loc = None) children.
Proof.
  induction children as [|child rest IH]; simpl.
  - split; [constructor|reflexivity].
  - destruct (child_match child loc) as [m|] eqn:Hm.
    + split; [discriminate|]. intros H. inversion H; congruence.
    + rewrite IH. split; [now constructor|]. intros H. now inversion H.
Qed.

(** The element [Switch] returns is the first one that matches. *)
Lemma Switch_Some children loc child m :
  Switch children loc = Some (child, m) ->
  exists before after,
    children = before ++ child :: after
    /\ Forall (fun child' => child_match child' loc = None) before
    /\ child_match child loc = Some m.
Proof.
  induction children as [|c rest IH]; simpl; [discriminate|].
  destruct (child_match c loc) as [m'|] eqn:Hm.
  - intros [= <- <-]. exists [], rest. repeat split; [constructor|exact Hm].
  - intros H. destruct (IH H) as (before & after & -> & Hb & Hc).
    exists (c :: before), after. repeat split; [now constructor|exact Hc].
Qed.

Lemma child_match_pathname (child : RouteProps component) loc1 loc2 :
  pathname loc1 = pathname loc2 ->
  child_match child loc1 = child_match child loc2.
Proof. unfold child_match. now intros ->. Qed.

Lemma Switch_pathname children loc1 loc2 :
  pathname loc1 = pathname loc2 ->
  Switch children loc1 = Switch children loc2.
Proof.
  intros H. induction children as [|c rest IH]; simpl; [reflexivity|].
  now rewrite (child_match_pathname c _ _ H), IH.
Qed.

End SwitchFacts.

(** ** Facts about the route table *)

Section Table.

(** Every pattern of the table lies in the modelled grammar. *)
Lemma routes_compile :
  Forall (fun r => is_Some (parse (route_path r))) routes.
Proof. repeat constructor; eexists; reflexivity. Qed.

(** No route of the table falls back on the inherited match. *)
Lemma child_match_routes (r : RouteProps component) (loc : location) :
  In r routes ->
  child_match r loc =
  matchPath (pathname loc) (route_path r) (exact r) (strict r) (sensitive r).
Proof.
  intros H. repeat (destruct H as [<-|H]; [reflexivity|]). destruct H.
Qed.

(** The root route misses every path of two characters or more. *)
Lemma root_miss (a b : ascii) (s : string) :
  matchPath (String a (String b s)) "/" true false false = None.
Proof.
  rewrite matchPath_root. cbn [String.eqb orb].
  destruct (Ascii.eqb a "/"); reflexivity.
Qed.

(** A plain-text route misses a path whose second character differs from
    its own. *)
Lemma literal_miss (l1 l2 a b : ascii) (lit s : string) :
  parse (String l1 (String l2 lit)) = Some [Str (String l1 (String l2 lit))] ->
  ends_with_slash (String l1 (String l2 lit)) = false ->
  char_eq_i l2 b = false ->
  matchPath (String a (String b s)) (String l1 (String l2 lit))
            false false false = None.
Proof.
  intros Hp He Hb. rewrite (matchPath_literal _ _ Hp He).
  cbn [match_literal char_eq]. rewrite Hb.
  destruct (char_eq_i l1 a); reflexivity.
Qed.

(** A plain-text route hits a path made of its own text, in any case,
    followed by nothing or by a delimiter. *)
Lemma literal_hit (lit pre rest : string) :
  parse lit = Some [Str lit] ->
  ends_with_slash lit = false ->
  eq_i lit pre = true ->
  at_boundary rest = true ->
  matchPath (pre +:+ rest) lit false false false =
  let matched := pre +:+ (if String.eqb rest "/" then "/" else "") in
  Some {| path := lit; url := matched;
          isExact := String.eqb (pre +:+ rest) matched; params := ∅ |}.
Proof.
  intros Hp He Hi Hr. rewrite (matchPath_literal _ _ Hp He).
  rewrite (match_literal_app _ _ _ Hi), Hr. reflexivity.
Qed.

(** The route with the key hits a path made of its text, a delimiter, a
    segment, and then nothing or a delimiter. *)
Lemma order_hit (X rest : string) :
  is_segment X = true ->
  at_boundary rest = true ->
  matchPath ("/order/" +:+ X +:+ rest) "/order/:orderId" false false false =
  let matched :=
    "/order/" +:+ X +:+ (if String.eqb rest "/" then "/" else "") in
  Some {| path := "/order/:orderId"; url := matched;
          isExact := String.eqb ("/order/" +:+ X +:+ rest) matched;
          params := {[ "orderId" := X ]} |}.
Proof.
  intros HX Hr.
  exact (matchPath_literal_key "/order" "orderId" "/order" X rest
           eq_refl eq_refl HX Hr).
Qed.

Lemma eq_i_second (l1 l2 : ascii) (lit pre : string) :
  eq_i (String l1 (String l2 lit)) pre = true ->
  second_letter pre = Some (canonicalize l2).
Proof.
  destruct pre as [|a [|b pre]]; simpl; try discriminate.
  - now rewrite andb_false_r.
  - intros H. apply andb_true_iff in H as [_ H].
    apply andb_true_iff in H as [H _].
    unfold char_eq_i in H. apply Ascii.eqb_eq in H. now rewrite H.
Qed.

Lemma second_letter_app (pre rest : string) (c : ascii) :
  second_letter pre = Some c -> second_letter (pre +:+ rest) = Some c.
Proof. destruct pre as [|a [|b pre]]; try discriminate. intros H; exact H. Qed.

Lemma match_literal_second (l1 l2 : ascii) (lit p pre rest : string) :
  match_literal false (String l1 (String l2 lit)) p = Some (pre, rest) ->
  second_letter p = Some (canonicalize l2).
Proof.
  intros H. apply match_literal_inv in H as [-> H].
  apply second_letter_app. exact (eq_i_second _ _ _ _ H).
Qed.

Lemma eqb_app_l (a b c : string) :
  String.eqb (a +:+ b) (a +:+ c) = String.eqb b c.
Proof.
  induction a as [|x a IH]; [reflexivity|].
  change (String.eqb (String x (a +:+ b)) (String x (a +:+ c))
          = String.eqb b c).
  cbn [String.eqb]. now rewrite Ascii.eqb_refl.
Qed.

(** A plain-text route hits a path that continues its text with further
    segments; the match is exact only when the continuation is a lone
    trailing delimiter. *)
Lemma prefix_hit (lit rest : string) :
  parse lit = Some [Str lit] ->
  ends_with_slash lit = false ->
  matchPath (lit +:+ "/" +:+ rest) lit false false false =
  Some {| path := lit;
          url := lit +:+ (if String.eqb rest "" then "/" else "");
          isExact := String.eqb rest ""; params := ∅ |}.
Proof.
  intros Hp He.
  rewrite (literal_hit lit lit ("/" +:+ rest) Hp He (eq_i_refl lit) eq_refl).
  cbn zeta. rewrite eqb_app_l.
  change (String.eqb ("/" +:+ rest) "/") with (String.eqb rest "").
  destruct rest as [|c rest]; reflexivity.
Qed.

Lemma order_prefix_hit (X rest : string) :
  is_segment X = true ->
  matchPath ("/order/" +:+ X +:+ "/" +:+ rest) "/order/:orderId"
            false false false =
  Some {| path := "/order/:orderId";
          url := "/order/" +:+ X +:+ (if String.eqb rest "" then "/" else "");
          isExact := String.eqb rest "";
          params := {[ "orderId" := X ]} |}.
Proof.
  intros HX. rewrite (order_hit X ("/" +:+ rest) HX eq_refl).
  cbn zeta. rewrite !eqb_app_l.
  change (String.eqb ("/" +:+ rest) "/") with (String.eqb rest "").
  destruct rest as [|c rest]; reflexivity.
Qed.

(** Whatever route of the table matches a path, the path carries that
    route's second character. *)
Lemma matched_second_letter (r : RouteProps component) (loc : location) :
  In r routes ->
  is_Some (child_match r loc) ->
  second_letter (pathname loc) = second_letter (route_path r).
Proof.
  intros Hr [m Hm]. rewrite (child_match_routes r loc Hr) in Hm.
  destruct Hr as [<-|[<-|[<-|[<-|[<-|[]]]]]];
    cbn [route route_path exact strict sensitive] in Hm |- *.
  - rewrite matchPath_root in Hm.
    destruct (pathname loc) as [|a [|b s]]; try reflexivity.
    cbn [String.eqb orb] in Hm. destruct (Ascii.eqb a "/"); discriminate.
  - rewrite matchPath_literal in Hm by reflexivity.
    destruct (match_literal false "/home" (pathname loc)) as [[pre rest]|]
      eqn:E; [|discriminate].
    exact (match_literal_second _ _ _ _ _ _ E).
  - rewrite matchPath_literal in Hm by reflexivity.
    destruct (match_literal false "/make" (pathname loc)) as [[pre rest]|]
      eqn:E; [|discriminate].
    exact (match_literal_second _ _ _ _ _ _ E).
  - rewrite matchPath_literal in Hm by reflexivity.
    destruct (match_literal false "/book" (pathname loc)) as [[pre rest]|]
      eqn:E; [|discriminate].
    exact (match_literal_second _ _ _ _ _ _ E).
  - unfold matchPath in Hm.
    replace (compilePath "/order/:orderId" false false false)
      with (Some (tokensToRegExp [Str "/order"; Key "orderId" "/" "/"]
                                 false false false, ["orderId"]))
      in Hm by reflexivity.
    unfold exec in Hm.
    change (re_tokens (tokensToRegExp [Str "/order"; Key "orderId" "/" "/"]
                                      false false false))
      with [Str "/order"; Key "orderId" "/" "/"] in Hm.
    rewrite exec_tokens_Str in Hm.
    change (re_sensitive (tokensToRegExp [Str "/order"; Key "orderId" "/" "/"]
                                         false false false))
      with false in Hm.
    destruct (match_literal false "/order" (pathname loc)) as [[pre rest]|]
      eqn:E; [|discriminate].
    exact (match_literal_second _ _ _ _ _ _ E).
Qed.

(** The second characters of the five patterns are pairwise distinct. *)
Lemma second_letter_routes (r1 r2 : RouteProps component) :
  In r1 routes -> In r2 routes ->
  second_letter (route_path r1) = second_letter (route_path r2) ->
  r1 = r2.
Proof.
  intros H1 H2.
  destruct H1 as [<-|[<-|[<-|[<-|[<-|[]]]]]];
    destruct H2 as [<-|[<-|[<-|[<-|[<-|[]]]]]];
    intros H; try reflexivity; vm_compute in H; discriminate.
Qed.

End Table.

Section Dispatch.

Implicit Types (loc : location).

Lemma Switch_cons_miss (c : RouteProps component) rest loc :
  child_match c loc = None -> Switch (c :: rest) loc = Switch rest loc.
Proof. simpl. now intros ->. Qed.

Lemma Switch_cons_hit (c : RouteProps component) rest loc m :
  child_match c loc = Some m -> Switch (c :: rest) loc = Some (c, m).
Proof. simpl. now intros ->. Qed.

Lemma child_match_route (e : bool) (pat : string) c ch loc :
  String.eqb pat "" = false ->
  child_match (route e pat c ch) loc =
  matchPath (pathname loc) pat e false false.
Proof. unfold child_match, route; cbn. now intros ->. Qed.

Lemma append_empty_r (s : string) : s +:+ "" = s.
Proof.
  induction s as [|c s IH]; [reflexivity|].
  change (String c (s +:+ "") = String c s). now rewrite IH.
Qed.

End Dispatch.

(** A route of the table missed by the current path: [Switch] moves on. *)
Ltac skip_route Hp :=
  rewrite Switch_cons_miss;
  [| rewrite child_match_route by reflexivity; rewrite Hp;
     first [ apply root_miss | apply literal_miss; reflexivity ] ].

(** A plain-text route of the table hit by the current path. *)
Ltac take_route Hp :=
  cbn [Switch]; rewrite child_match_route by reflexivity; rewrite Hp.

Section Claims.

Implicit Types (loc : location).

(** C5. For the URL path [/make] the rendered output is the Maker View:
    an element of [MakerPage], created with the match of pattern [/make]. *)
Theorem C5_make_renders_maker_view loc :
  pathname loc = "/make" ->
  render loc =
  Some (CreateElement MakerPage loc
          {| path := "/make"; url := "/make"; isExact := true;
             params := ∅ |}).
Proof.
  intros Hp. unfold render, routes.
  do 2 skip_route Hp. take_route Hp. reflexivity.
Qed.

Lemma C5_make_witness :
  render (at_path "/make") =
  Some (CreateElement MakerPage (at_path "/make")
          {| path := "/make"; url := "/make"; isExact := true;
             params := ∅ |}).
Proof. apply (C5_make_renders_maker_view (at_path "/make")). reflexivity. Defined.

(** C6. For the URL path [/book] the rendered output is the Book View: an
    element of [BookPage], created with the match of pattern [/book]. *)
Theorem C6_book_renders_book_view loc :
  pathname loc = "/book" ->
  render loc =
  Some (CreateElement BookPage loc
          {| path := "/book"; url := "/book"; isExact := true;
             params := ∅ |}).
Proof.
  intros Hp. unfold render, routes.
  do 3 skip_route Hp. take_route Hp. reflexivity.
Qed.

Lemma C6_book_witness :
  render (at_path "/book") =
  Some (CreateElement BookPage (at_path "/book")
          {| path := "/book"; url := "/book"; isExact := true;
             params := ∅ |}).
Proof. apply (C6_book_renders_book_view (at_path "/book")). reflexivity. Defined.

(** C3. The pattern [/] is matched with [exact]: at the URL path [/] the
    rendered output is the User Generation View, an element of [UserGenPage],
    and among the non-empty paths the root route matches [/] and no other, so
    not [/home], [/make], [/book] or any longer path. *)
Theorem C3_root_matches_only_root loc :
  (pathname loc = "/" ->
   render loc =
   Some (CreateElement UserGenPage loc
           {| path := "/"; url := "/"; isExact := true; params := ∅ |}))
  /\ (pathname loc <> "" ->
      (is_Some (matchPath (pathname loc) "/" true false false)
       <-> pathname loc = "/")).
Proof.
  split.
  - intros Hp. unfold render, routes. take_route Hp. reflexivity.
  - intros Hne. rewrite matchPath_root.
    destruct (String.eqb_spec (pathname loc) "") as [E|_]; [contradiction|].
    destruct (String.eqb_spec (pathname loc) "/") as [E|E]; cbn [orb].
    + split; [intros _; exact E|intros _; eexists; reflexivity].
    + split; [intros [m Hm]; discriminate|contradiction].
Qed.

Lemma C3_root_witness :
  render (at_path "/") =
  Some (CreateElement UserGenPage (at_path "/")
          {| path := "/"; url := "/"; isExact := true; params := ∅ |})
  /\ ~ is_Some (matchPath "/home" "/" true false false).
Proof.
  split.
  - apply (proj1 (C3_root_matches_only_root (at_path "/"))). reflexivity.
  - intros H.
    apply (proj2 (C3_root_matches_only_root (at_path "/home"))) in H;
      simpl in *; discriminate.
Defined.

(** C7. The table has no fallback entry: at a URL path that none of the
    five patterns matches, [Switch] selects no element and [render] produces
    nothing. *)
Theorem C7_unmatched_renders_nothing loc :
  (forall r, In r routes ->
     matchPath (pathname loc) (route_path r) (exact r) (strict r)
               (sensitive r) = None) ->
  Switch routes loc = None /\ render loc = None.
Proof.
  intros H.
  assert (Hs : Switch routes loc = None).
  { apply Switch_None, List.Forall_forall. intros r Hr.
    rewrite (child_match_routes r loc Hr). now apply H. }
  split; [exact Hs|]. unfold render. now rewrite Hs.
Qed.

Lemma C7_unmatched_witness :
  Switch routes (at_path "/profile") = None
  /\ render (at_path "/profile") = None.
Proof.
  apply (C7_unmatched_renders_nothing (at_path "/profile")).
  intros r Hr. repeat (destruct Hr as [<-|Hr]; [reflexivity|]). destruct Hr.
Defined.

(** C9. At the URL paths [/order] and [/order/] the pattern
    [/order/:orderId] does not match, its key needing a non-empty segment;
    no other pattern of the table matches either, and nothing is rendered. *)
Theorem C9_order_without_segment loc :
  pathname loc = "/order" \/ pathname loc = "/order/" ->
  matchPath (pathname loc) "/order/:orderId" false false false = None
  /\ Forall (fun r => child_match r loc = None) routes
  /\ render loc = None.
Proof.
  intros Hp.
  assert (Hall : Forall (fun r => child_match r loc = None) routes).
  { unfold routes.
    repeat (constructor;
            [rewrite child_match_route by reflexivity;
             destruct Hp as [-> | ->]; reflexivity|]).
    constructor. }
  split; [|split; [exact Hall|]].
  - destruct Hp as [-> | ->]; reflexivity.
  - unfold render. apply Switch_None in Hall. now rewrite Hall.
Qed.

Lemma C9_order_witness :
  matchPath "/order/" "/order/:orderId" false false false = None
  /\ Forall (fun r => child_match r (at_path "/order/") = None) routes
  /\ render (at_path "/order/") = None.
Proof.
  apply (C9_order_without_segment (at_path "/order/")). right. reflexivity.
Defined.

(** C2. At a URL path [/order/X], with [X] a non-empty segment, the
    rendered output is the Order View: an element of [OrderPage] created with
    a match whose parameters bind [orderId] to [X]. *)
Theorem C2_order_binds_orderId loc (X : string) :
  is_segment X = true ->
  pathname loc = "/order/" +:+ X ->
  render loc =
  Some (CreateElement OrderPage loc
          {| path := "/order/:orderId"; url := "/order/" +:+ X;
             isExact := true; params := {[ "orderId" := X ]} |}).
Proof.
  intros HX Hp. unfold render, routes.
  do 4 skip_route Hp. take_route Hp.
  pose proof (order_hit X "" HX eq_refl) as Hm.
  cbn zeta in Hm. change (if String.eqb "" "/" then "/" else "") with "" in Hm.
  rewrite append_empty_r, String.eqb_refl in Hm.
  rewrite Hm. reflexivity.
Qed.

Lemma C2_order_42_witness :
  render (at_path "/order/42") =
  Some (CreateElement OrderPage (at_path "/order/42")
          {| path := "/order/:orderId"; url := "/order/42";
             isExact := true; params := {[ "orderId" := "42" ]} |}).
Proof.
  apply (C2_order_binds_orderId (at_path "/order/42") "42"); reflexivity.
Defined.

(** C8. [/make], [/book] and [/order/:orderId] are declared without
    [exact] and match by segment prefix: a URL path that continues the
    pattern with a delimiter and anything further still renders the same
    view, and for the order route [orderId] is bound to the segment that
    follows [/order/]. *)
Theorem C8_routes_match_by_segment_prefix loc (rest : string) :
  (pathname loc = "/make/" +:+ rest ->
   render loc =
   Some (CreateElement MakerPage loc
           {| path := "/make";
              url := "/make" +:+ (if String.eqb rest "" then "/" else "");
              isExact := String.eqb rest ""; params := ∅ |}))
  /\ (pathname loc = "/book/" +:+ rest ->
      render loc =
      Some (CreateElement BookPage loc
              {| path := "/book";
                 url := "/book" +:+ (if String.eqb rest "" then "/" else "");
                 isExact := String.eqb rest ""; params := ∅ |}))
  /\ (forall X : string,
        is_segment X = true ->
        pathname loc = "/order/" +:+ X +:+ "/" +:+ rest ->
        render loc =
        Some (CreateElement OrderPage loc
                {| path := "/order/:orderId";
                   url := "/order/" +:+ X
                          +:+ (if String.eqb rest "" then "/" else "");
                   isExact := String.eqb rest "";
                   params := {[ "orderId" := X ]} |})).
Proof.
  repeat split.
  - intros Hp. unfold render, routes. do 2 skip_route Hp. take_route Hp.
    change ("/make/" +:+ rest) with ("/make" +:+ "/" +:+ rest).
    rewrite prefix_hit by reflexivity. reflexivity.
  - intros Hp. unfold render, routes. do 3 skip_route Hp. take_route Hp.
    change ("/book/" +:+ rest) with ("/book" +:+ "/" +:+ rest).
    rewrite prefix_hit by reflexivity. reflexivity.
  - intros X HX Hp. unfold render, routes. do 4 skip_route Hp.
    take_route Hp. rewrite (order_prefix_hit X rest HX). reflexivity.
Qed.

Lemma C8_prefix_witness :
  render (at_path "/make/extra") =
  Some (CreateElement MakerPage (at_path "/make/extra")
          {| path := "/make"; url := "/make"; isExact := false;
             params := ∅ |})
  /\ render (at_path "/book/x/y") =
     Some (CreateElement BookPage (at_path "/book/x/y")
             {| path := "/book"; url := "/book"; isExact := false;
                params := ∅ |})
  /\ render (at_path "/order/42/detail") =
     Some (CreateElement OrderPage (at_path "/order/42/detail")
             {| path := "/order/:orderId"; url := "/order/42";
                isExact := false; params := {[ "orderId" := "42" ]} |}).
Proof.
  split; [|split].
  - apply (proj1 (C8_routes_match_by_segment_prefix
                    (at_path "/make/extra") "extra")).
    reflexivity.
  - apply (proj1 (proj2 (C8_routes_match_by_segment_prefix
                           (at_path "/book/x/y") "x/y"))).
    reflexivity.
  - apply (proj2 (proj2 (C8_routes_match_by_segment_prefix
                           (at_path "/order/42/detail") "detail")) "42");
      reflexivity.
Defined.




(** C1. For every URL path at most one entry of the table is active and
    rendered.  [Switch] walks the five entries from the top and stops at the
    first that matches: every entry before the selected one misses the path,
    and [render] yields the output of that single entry (or nothing when all
    miss).  The patterns do not overlap either: two entries of the table that
    both match one path are the same entry. *)
Theorem C1_first_match_wins_at_most_one loc :
  match Switch routes loc with
  | Some (r, m) =>
      exists before after,
        routes = before ++ r :: after
        /\ Forall (fun r' => child_match r' loc = None) before
        /\ child_match r loc = Some m
        /\ render loc = Route r loc m
  | None =>
      Forall (fun r => child_match r loc = None) routes
      /\ render loc = None
  end
  /\ (forall r1 r2,
        In r1 routes -> In r2 routes ->
        is_Some (child_match r1 loc) -> is_Some (child_match r2 loc) ->
        r1 = r2).
Proof.
  split.
  - unfold render. destruct (Switch routes loc) as [[r m]|] eqn:Hs.
    + destruct (Switch_Some _ _ _ _ Hs) as (before & after & E & Hb & Hm).
      exists before, after. repeat split; assumption.
    + split; [now apply Switch_None|reflexivity].
  - intros r1 r2 H1 H2 M1 M2.
    apply second_letter_routes; try assumption.
    rewrite <- (matched_second_letter r1 loc H1 M1).
    exact (matched_second_letter r2 loc H2 M2).
Qed.

Lemma C1_first_match_witness :
  match Switch routes (at_path "/book") with
  | Some (r, m) =>
      exists before after,
        routes = before ++ r :: after
        /\ Forall (fun r' => child_match r' (at_path "/book") = None) before
        /\ child_match r (at_path "/book") = Some m
        /\ render (at_path "/book") = Route r (at_path "/book") m
  | None =>
      Forall (fun r => child_match r (at_path "/book") = None) routes
      /\ render (at_path "/book") = None
  end
  /\ (forall r1 r2,
        In r1 routes -> In r2 routes ->
        is_Some (child_match r1 (at_path "/book")) ->
        is_Some (child_match r2 (at_path "/book")) ->
        r1 = r2).
Proof. exact (C1_first_match_wins_at_most_one (at_path "/book")). Defined.

End Claims.

(** ** The table as a whole *)

Section Inversion.

Implicit Types (loc : location).

(** Every text splits into a delimiter-free head and a rest that is empty
    or starts at a delimiter. *)
Lemma split_segment (s : string) :
  exists X rest, s = X +:+ rest /\ no_slash X = true /\ at_boundary rest = true.
Proof.
  induction s as [|c s (X & rest & E & HX & Hr)].
  - exists "", "". repeat split.
  - destruct (Ascii.eqb c "/") eqn:Hc.
    + exists "", (String c s). repeat split. exact Hc.
    + exists (String c X), rest. rewrite E. repeat split; [|exact Hr].
      simpl. now rewrite Hc, HX.
Qed.

Lemma lazy_capture_at_boundary {R : Type} (k : string -> option R)
    (acc rest : string) :
  at_boundary rest = true -> lazy_capture false "/" k acc rest = None.
Proof.
  destruct rest as [|c rest]; [reflexivity|]. cbn [at_boundary]. intros Hc.
  cbn [lazy_capture char_eq]. now rewrite char_eq_i_slash, Ascii.eqb_sym, Hc.
Qed.

(** A path the order route matches is its text in some letter case, a
    delimiter, a segment, and then nothing or a delimiter. *)
Lemma order_match_inv (p : string) (m : match_) :
  matchPath p "/order/:orderId" false false false = Some m ->
  exists pre X rest,
    p = pre +:+ "/" +:+ X +:+ rest
    /\ eq_i "/order" pre = true
    /\ is_segment X = true
    /\ at_boundary rest = true.
Proof.
  intros Hm. unfold matchPath in Hm.
  replace (compilePath "/order/:orderId" false false false)
    with (Some (tokensToRegExp [Str "/order"; Key "orderId" "/" "/"]
                               false false false, ["orderId"]))
    in Hm by reflexivity.
  set (re := tokensToRegExp [Str "/order"; Key "orderId" "/" "/"]
                            false false false) in Hm.
  unfold exec in Hm.
  change (re_tokens re) with [Str "/order"; Key "orderId" "/" "/"] in Hm.
  rewrite exec_tokens_Str in Hm. change (re_sensitive re) with false in Hm.
  destruct (match_literal false "/order" p) as [[pre r1]|] eqn:E;
    [|discriminate].
  apply match_literal_inv in E as [-> Hpre].
  rewrite exec_tokens_Key in Hm. change (re_sensitive re) with false in Hm.
  destruct r1 as [|c r1]; [discriminate|].
  cbn [match_literal char_eq] in Hm. rewrite char_eq_i_slash in Hm.
  destruct (Ascii.eqb_spec "/" c) as [<-|]; [|discriminate].
  destruct (split_segment r1) as (X & rest & -> & HX & Hr).
  destruct X as [|x X].
  - change ("" +:+ rest) with rest in Hm.
    rewrite (lazy_capture_at_boundary _ _ _ Hr) in Hm. discriminate.
  - exists pre, (String x X), rest. repeat split; assumption.
Qed.

(** A path a plain-text route matches is the route's text in some letter
    case followed by nothing or a delimiter. *)
Lemma literal_match_inv (lit p : string) (m : match_) :
  parse lit = Some [Str lit] ->
  ends_with_slash lit = false ->
  matchPath p lit false false false = Some m ->
  exists pre rest,
    p = pre +:+ rest /\ eq_i lit pre = true /\ at_boundary rest = true.
Proof.
  intros Hp He Hm. rewrite (matchPath_literal _ _ Hp He) in Hm.
  destruct (match_literal false lit p) as [[pre rest]|] eqn:E; [|discriminate].
  destruct (at_boundary rest) eqn:Hr; [|discriminate].
  apply match_literal_inv in E as [-> Hi]. now exists pre, rest.
Qed.

(** In this table a route that matches is the route [Switch] selects:
    nothing declared above it can take the path away. *)
Lemma Switch_routes_hit (r : RouteProps component) loc (m : match_) :
  In r routes -> child_match r loc = Some m -> Switch routes loc = Some (r, m).
Proof.
  intros Hr Hm.
  destruct (Switch routes loc) as [[r' m']|] eqn:Hs.
  - destruct (Switch_Some _ _ _ _ Hs) as (before & after & E & _ & Hm').
    assert (Hr' : In r' routes).
    { rewrite E. apply in_or_app. right. now left. }
    assert (r' = r).
    { apply second_letter_routes; try assumption.
      rewrite <- (matched_second_letter r' loc Hr') by (now exists m').
      apply matched_second_letter; [assumption|now exists m]. }
    subst r'. congruence.
  - apply Switch_None in Hs. rewrite List.Forall_forall in Hs.
    rewrite (Hs r Hr) in Hm. discriminate.
Qed.

Lemma Switch_Some_In (children : list (RouteProps component)) loc
    (r : RouteProps component) (m : match_) :
  Switch children loc = Some (r, m) ->
  In r children /\ child_match r loc = Some m.
Proof.
  intros Hs. destruct (Switch_Some _ _ _ _ Hs) as (b & a & E & _ & Hm).
  split; [|exact Hm]. rewrite E. apply in_or_app. right. now left.
Qed.

(** What [render] shows comes from an entry of the table that matches the
    path, and an entry that matches is the one [render] shows. *)
Lemma render_inv loc (out : rendered component) :
  render loc = Some out ->
  exists r m,
    In r routes /\ child_match r loc = Some m /\ Route r loc m = Some out.
Proof.
  unfold render. destruct (Switch routes loc) as [[r m]|] eqn:Hs;
    [|discriminate].
  intros Ho. destruct (Switch_Some_In _ _ _ _ Hs) as [Hr Hm].
  now exists r, m.
Qed.

Lemma render_hit (r : RouteProps component) loc (m : match_) :
  In r routes -> child_match r loc = Some m -> render loc = Route r loc m.
Proof.
  intros Hr Hm. unfold render. now rewrite (Switch_routes_hit r loc m Hr Hm).
Qed.

Lemma eqb_boundary_text (rest : string) :
  String.eqb rest (if String.eqb rest "/" then "/" else "")
  = String.eqb rest "" || String.eqb rest "/".
Proof.
  destruct (String.eqb_spec rest "/") as [->|H]; [reflexivity|].
  now rewrite orb_false_r.
Qed.

(** The match a plain-text route computes, with [isExact] spelled out. *)
Lemma literal_hit_exact (lit pre rest : string) :
  parse lit = Some [Str lit] ->
  ends_with_slash lit = false ->
  eq_i lit pre = true ->
  at_boundary rest = true ->
  matchPath (pre +:+ rest) lit false false false =
  Some {| path := lit;
          url := pre +:+ (if String.eqb rest "/" then "/" else "");
          isExact := String.eqb rest "" || String.eqb rest "/";
          params := ∅ |}.
Proof.
  intros Hp He Hi Hr. rewrite (literal_hit _ _ _ Hp He Hi Hr). cbn zeta.
  now rewrite eqb_app_l, eqb_boundary_text.
Qed.

(** The match the order route computes, with [isExact] spelled out. *)
Lemma order_hit_exact (pre X rest : string) :
  eq_i "/order" pre = true ->
  is_segment X = true ->
  at_boundary rest = true ->
  matchPath (pre +:+ "/" +:+ X +:+ rest) "/order/:orderId" false false false =
  Some {| path := "/order/:orderId";
          url := pre +:+ "/" +:+ X
                 +:+ (if String.eqb rest "/" then "/" else "");
          isExact := String.eqb rest "" || String.eqb rest "/";
          params := {[ "orderId" := X ]} |}.
Proof.
  intros Hi HX Hr.
  etransitivity;
    [exact (matchPath_literal_key "/order" "orderId" pre X rest
              eq_refl Hi HX Hr)|].
  cbn zeta. change ("/order" +:+ "/:" +:+ "orderId") with "/order/:orderId".
  now rewrite !eqb_app_l, eqb_boundary_text.
Qed.

End Inversion.

Section WholeTable.

Implicit Types (loc : location).

(** X1. The patterns of the table do not overlap, so [Switch] selects an
    entry with a match exactly when that entry belongs to the table and its
    pattern matches the path: no entry is ever shadowed by one above it. *)
Theorem switch_selects_exactly_the_matching_route loc
    (r : RouteProps component) (m : match_) :
  Switch routes loc = Some (r, m) <->
  In r routes /\ child_match r loc = Some m.
Proof.
  split.
  - apply Switch_Some_In.
  - intros [Hr Hm]. now apply Switch_routes_hit.
Qed.

(** X2. The declared order of the five routes does not influence
    dispatch: [Switch] over any rearrangement of the table selects the same
    entry with the same match. *)
Theorem dispatch_independent_of_route_order loc
    (routes' : list (RouteProps component)) :
  Permutation routes routes' ->
  Switch routes' loc = Switch routes loc.
Proof.
  intros Hperm. destruct (Switch routes' loc) as [[r m]|] eqn:Hs.
  - destruct (Switch_Some_In _ _ _ _ Hs) as [Hr Hm].
    symmetry. apply Switch_routes_hit; [|exact Hm].
    exact (Permutation_in r (Permutation_sym Hperm) Hr).
  - symmetry. apply Switch_None. apply Switch_None in Hs.
    rewrite List.Forall_forall in Hs |- *. intros r Hr.
    apply Hs. exact (Permutation_in r Hperm Hr).
Qed.

Lemma dispatch_reversed_witness :
  Switch (rev routes) (at_path "/order/42") = Switch routes (at_path "/order/42").
Proof.
  apply (dispatch_independent_of_route_order (at_path "/order/42") (rev routes)).
  apply Permutation_rev.
Defined.

(** Every entry of the table carries a component or children, so a
    selected entry always produces output. *)
Lemma Route_routes_some (r : RouteProps component) loc (m : match_) :
  In r routes -> Route r loc m <> None.
Proof.
  intros Hr. repeat (destruct Hr as [<-|Hr]; [discriminate|]). destruct Hr.
Qed.

(** X3. [render] produces nothing exactly when no pattern of the table
    matches the path: an entry that matches always renders. *)
Theorem render_nothing_iff_no_route_matches loc :
  render loc = None <->
  Forall (fun r => child_match r loc = None) routes.
Proof.
  unfold render. split.
  - destruct (Switch routes loc) as [[r m]|] eqn:Hs.
    + intros Ho. exfalso.
      apply (Route_routes_some r loc m); [|exact Ho].
      exact (proj1 (Switch_Some_In _ _ _ _ Hs)).
    + intros _. now apply Switch_None.
  - intros H. apply Switch_None in H. now rewrite H.
Qed.

End WholeTable.

(** The entry behind an output of [render], by cases over the table. *)
Ltac invert_render H :=
  let r := fresh "r" in
  let m := fresh "m" in
  let Hr := fresh "Hr" in
  let Hm := fresh "Hm" in
  let Ho := fresh "Ho" in
  destruct (render_inv _ _ H) as (r & m & Hr & Hm & Ho);
  destruct Hr as [<-|[<-|[<-|[<-|[<-|[]]]]]];
  cbn in Ho; try discriminate;
  rewrite child_match_route in Hm by reflexivity.

Section Views.

Implicit Types (loc : location).

(** X4. The User Generation View is rendered at the root only: [render]
    yields an element of [UserGenPage] exactly when the path is [/] or empty,
    and the element then carries the location it was dispatched on and the
    exact root match. *)
Theorem user_gen_view_iff_root loc (l : location) (m : match_) :
  render loc = Some (CreateElement UserGenPage l m) <->
  (pathname loc = "" \/ pathname loc = "/")
  /\ l = loc
  /\ m = {| path := "/"; url := "/"; isExact := true; params := ∅ |}.
Proof.
  split.
  - intros H. invert_render H. injection Ho as <- <-.
    rewrite matchPath_root in Hm.
    destruct (String.eqb_spec (pathname loc) "") as [E|_].
    + injection Hm as <-. auto.
    + destruct (String.eqb_spec (pathname loc) "/") as [E|_];
        [|discriminate].
      injection Hm as <-. auto.
  - intros (Hp & -> & ->).
    rewrite (render_hit (route true "/" (Some UserGenPage) None) loc
               {| path := "/"; url := "/"; isExact := true; params := ∅ |}).
    + reflexivity.
    + now left.
    + rewrite child_match_route by reflexivity.
      destruct Hp as [-> | ->]; reflexivity.
Qed.

(** X5. The static text is rendered under [/home] only: [render] yields a
    child node exactly when the path is [/home], in any letter case, followed
    by nothing or by a delimiter, and the node is then the paragraph "You are
    at the start page". *)
Theorem static_text_iff_home_segment loc (n : node) :
  render loc = Some (Children n) <->
  n = Element "p" "You are at the start page"
  /\ exists pre rest,
       pathname loc = pre +:+ rest
       /\ eq_i "/home" pre = true
       /\ at_boundary rest = true.
Proof.
  split.
  - intros H. invert_render H. injection Ho as <-. split; [reflexivity|].
    exact (literal_match_inv "/home" _ _ eq_refl eq_refl Hm).
  - intros (-> & pre & rest & Hp & Hi & Hr).
    erewrite (render_hit (route false "/home" None
                            (Some (Element "p" "You are at the start page")))).
    + reflexivity.
    + right. now left.
    + rewrite child_match_route by reflexivity. rewrite Hp.
      exact (literal_hit_exact "/home" pre rest eq_refl eq_refl Hi Hr).
Qed.

(** X6. The Maker View is rendered under [/make] only: [render] yields an
    element of [MakerPage] exactly when the path is [/make], in any letter
    case, followed by nothing or by a delimiter.  The element carries the
    dispatched location and a match without parameters whose [url] is the
    matched text (with the lone trailing delimiter, if any) and which is
    exact when nothing else follows. *)
Theorem maker_view_iff_make_segment loc (l : location) (m : match_) :
  render loc = Some (CreateElement MakerPage l m) <->
  l = loc
  /\ exists pre rest,
       pathname loc = pre +:+ rest
       /\ eq_i "/make" pre = true
       /\ at_boundary rest = true
       /\ m = {| path := "/make";
                 url := pre +:+ (if String.eqb rest "/" then "/" else "");
                 isExact := String.eqb rest "" || String.eqb rest "/";
                 params := ∅ |}.
Proof.
  split.
  - intros H. invert_render H. injection Ho as <- <-. split; [reflexivity|].
    destruct (literal_match_inv "/make" _ _ eq_refl eq_refl Hm)
      as (pre & rest & Hp & Hi & Hr).
    exists pre, rest. repeat split; try assumption.
    rewrite Hp, (literal_hit_exact "/make" pre rest eq_refl eq_refl Hi Hr)
      in Hm.
    now injection Hm as <-.
  - intros (-> & pre & rest & Hp & Hi & Hr & ->).
    erewrite (render_hit (route false "/make" (Some MakerPage) None)).
    + reflexivity.
    + do 2 right. now left.
    + rewrite child_match_route by reflexivity. rewrite Hp.
      exact (literal_hit_exact "/make" pre rest eq_refl eq_refl Hi Hr).
Qed.

(** X7. The Book View is rendered under [/book] only: [render] yields an
    element of [BookPage] exactly when the path is [/book], in any letter
    case, followed by nothing or by a delimiter, with the dispatched location
    and a match without parameters. *)
Theorem book_view_iff_book_segment loc (l : location) (m : match_) :
  render loc = Some (CreateElement BookPage l m) <->
  l = loc
  /\ exists pre rest,
       pathname loc = pre +:+ rest
       /\ eq_i "/book" pre = true
       /\ at_boundary rest = true
       /\ m = {| path := "/book";
                 url := pre +:+ (if String.eqb rest "/" then "/" else "");
                 isExact := String.eqb rest "" || String.eqb rest "/";
                 params := ∅ |}.
Proof.
  split.
  - intros H. invert_render H. injection Ho as <- <-. split; [reflexivity|].
    destruct (literal_match_inv "/book" _ _ eq_refl eq_refl Hm)
      as (pre & rest & Hp & Hi & Hr).
    exists pre, rest. repeat split; try assumption.
    rewrite Hp, (literal_hit_exact "/book" pre rest eq_refl eq_refl Hi Hr)
      in Hm.
    now injection Hm as <-.
  - intros (-> & pre & rest & Hp & Hi & Hr & ->).
    erewrite (render_hit (route false "/book" (Some BookPage) None)).
    + reflexivity.
    + do 3 right. now left.
    + rewrite child_match_route by reflexivity. rewrite Hp.
      exact (literal_hit_exact "/book" pre rest eq_refl eq_refl Hi Hr).
Qed.

(** X8. The Order View is rendered under [/order/<segment>] only, and
    [orderId] is always a real segment: [render] yields an element of
    [OrderPage] exactly when the path is [/order] in any letter case, a
    delimiter, a non-empty delimiter-free segment [X], and then nothing or a
    delimiter.  The match binds [orderId] to [X], unchanged in case, and to
    nothing else. *)
Theorem order_view_iff_order_segment loc (l : location) (m : match_) :
  render loc = Some (CreateElement OrderPage l m) <->
  l = loc
  /\ exists pre X rest,
       pathname loc = pre +:+ "/" +:+ X +:+ rest
       /\ eq_i "/order" pre = true
       /\ is_segment X = true
       /\ at_boundary rest = true
       /\ m = {| path := "/order/:orderId";
                 url := pre +:+ "/" +:+ X
                        +:+ (if String.eqb rest "/" then "/" else "");
                 isExact := String.eqb rest "" || String.eqb rest "/";
                 params := {[ "orderId" := X ]} |}.
Proof.
  split.
  - intros H. invert_render H. injection Ho as <- <-. split; [reflexivity|].
    destruct (order_match_inv _ _ Hm) as (pre & X & rest & Hp & Hi & HX & Hr).
    exists pre, X, rest. repeat split; try assumption.
    rewrite Hp, (order_hit_exact pre X rest Hi HX Hr) in Hm.
    now injection Hm as <-.
  - intros (-> & pre & X & rest & Hp & Hi & HX & Hr & ->).
    erewrite (render_hit (route false "/order/:orderId" (Some OrderPage) None)).
    + reflexivity.
    + do 4 right. now left.
    + rewrite child_match_route by reflexivity. rewrite Hp.
      exact (order_hit_exact pre X rest Hi HX Hr).
Qed.

End Views.

Section MatchedUrl.

Implicit Types (loc : location).

Lemma append_assoc (a b c : string) : (a +:+ b) +:+ c = a +:+ b +:+ c.
Proof.
  induction a as [|x a IH]; [reflexivity|].
  change (String x ((a +:+ b) +:+ c) = String x (a +:+ b +:+ c)).
  now rewrite IH.
Qed.

Lemma append_inj_l (a b c : string) : a +:+ b = a +:+ c -> b = c.
Proof.
  intros H. apply String.eqb_eq. rewrite <- (eqb_app_l a). now apply String.eqb_eq.
Qed.

(** The text a non-exact expression consumes at its end, and what it
    leaves of the input. *)
Lemma boundary_split (rest : string) :
  at_boundary rest = true ->
  exists rest',
    rest = (if String.eqb rest "/" then "/" else "") +:+ rest'
    /\ at_boundary rest' = true
    /\ (String.eqb rest "" || String.eqb rest "/" = true <-> rest' = "").
Proof.
  intros Hr. destruct (String.eqb_spec rest "/") as [->|Hne].
  - exists "". repeat split; reflexivity.
  - exists rest. repeat split; try assumption.
    + rewrite orb_false_r. apply String.eqb_eq.
    + intros ->. reflexivity.
Qed.

(** The shape shared by every match of a non-exact route of the table. *)
Lemma url_prefix_shape (A rest : string) :
  at_boundary rest = true ->
  let u := A +:+ (if String.eqb rest "/" then "/" else "") in
  (exists rest', A +:+ rest = u +:+ rest' /\ at_boundary rest' = true)
  /\ (String.eqb rest "" || String.eqb rest "/" = true <-> u = A +:+ rest).
Proof.
  intros Hr u. destruct (boundary_split rest Hr) as (rest' & E & Hr' & Hx).
  subst u. split.
  - exists rest'. split; [|exact Hr']. rewrite append_assoc. now rewrite <- E.
  - rewrite Hx. split.
    + intros ->. rewrite append_empty_r in E. now rewrite <- E.
    + intros H. apply append_inj_l in H. rewrite E in H at 2.
      rewrite <- (append_empty_r (if String.eqb rest "/" then "/" else ""))
        in H at 1.
      apply append_inj_l in H. now symmetry.
Qed.

(** X9. Whatever entry is selected on a non-empty path, its match names
    the entry's own pattern, its [url] is a prefix of the path that stops at a
    segment boundary, and [isExact] holds exactly when the [url] is the whole
    path. *)
Theorem matched_url_is_boundary_prefix loc
    (r : RouteProps component) (m : match_) :
  Switch routes loc = Some (r, m) ->
  pathname loc <> "" ->
  path m = route_path r
  /\ (exists rest,
        pathname loc = url m +:+ rest /\ at_boundary rest = true)
  /\ (isExact m = true <-> url m = pathname loc).
Proof.
  intros Hs Hne. destruct (Switch_Some_In _ _ _ _ Hs) as [Hr Hm].
  destruct Hr as [<-|[<-|[<-|[<-|[<-|[]]]]]];
    rewrite child_match_route in Hm by reflexivity.
  - rewrite matchPath_root in Hm.
    destruct (String.eqb_spec (pathname loc) "") as [E|_]; [contradiction|].
    destruct (String.eqb_spec (pathname loc) "/") as [E|_]; [|discriminate].
    injection Hm as <-. rewrite E. repeat split. now exists "".
  - destruct (literal_match_inv "/home" _ _ eq_refl eq_refl Hm)
      as (pre & rest & Hp & Hi & Hb).
    rewrite Hp, (literal_hit_exact "/home" pre rest eq_refl eq_refl Hi Hb)
      in Hm.
    injection Hm as <-. rewrite Hp. cbn [path url isExact route_path route].
    split; [reflexivity|]. exact (url_prefix_shape pre rest Hb).
  - destruct (literal_match_inv "/make" _ _ eq_refl eq_refl Hm)
      as (pre & rest & Hp & Hi & Hb).
    rewrite Hp, (literal_hit_exact "/make" pre rest eq_refl eq_refl Hi Hb)
      in Hm.
    injection Hm as <-. rewrite Hp. cbn [path url isExact route_path route].
    split; [reflexivity|]. exact (url_prefix_shape pre rest Hb).
  - destruct (literal_match_inv "/book" _ _ eq_refl eq_refl Hm)
      as (pre & rest & Hp & Hi & Hb).
    rewrite Hp, (literal_hit_exact "/book" pre rest eq_refl eq_refl Hi Hb)
      in Hm.
    injection Hm as <-. rewrite Hp. cbn [path url isExact route_path route].
    split; [reflexivity|]. exact (url_prefix_shape pre rest Hb).
  - destruct (order_match_inv _ _ Hm) as (pre & X & rest & Hp & Hi & HX & Hb).
    rewrite Hp, (order_hit_exact pre X rest Hi HX Hb) in Hm.
    injection Hm as <-. rewrite Hp. cbn [path url isExact route_path route].
    split; [reflexivity|].
    pose proof (url_prefix_shape (pre +:+ "/" +:+ X) rest Hb) as H.
    cbn zeta in H. rewrite !append_assoc in H. exact H.
Qed.

Lemma matched_url_witness :
  path {| path := "/make"; url := "/make"; isExact := false; params := ∅ |}
  = "/make"
  /\ (exists rest,
        "/make/extra" = "/make" +:+ rest /\ at_boundary rest = true)
  /\ (false = true <-> "/make" = "/make/extra").
Proof.
  apply (matched_url_is_boundary_prefix (at_path "/make/extra")
           (route false "/make" (Some MakerPage) None)
           {| path := "/make"; url := "/make"; isExact := false;
              params := ∅ |}).
  - reflexivity.
  - discriminate.
Defined.

End MatchedUrl.

Section TrailingDelimiter.

Implicit Types (loc : location).

Lemma ends_with_slash_tail (l : ascii) (lit : string) :
  ends_with_slash (String l lit) = false -> ends_with_slash lit = false.
Proof. destruct lit; [reflexivity|intros H; exact H]. Qed.

(** Appending a delimiter to the input of a literal that does not end in
    one only lengthens what the literal leaves over. *)
Lemma match_literal_snoc (lit p : string) :
  ends_with_slash lit = false ->
  match_literal false lit (p +:+ "/") =
  match match_literal false lit p with
  | Some (pre, rest) => Some (pre, rest +:+ "/")
  | None => None
  end.
Proof.
  revert p. induction lit as [|l lit IH]; intros p He; [reflexivity|].
  destruct p as [|c p].
  - change ("" +:+ "/") with "/". cbn [match_literal char_eq].
    destruct lit as [|l' lit].
    + simpl in He. rewrite Ascii.eqb_sym in He.
      unfold char_eq_i in *. rewrite Ascii.eqb_sym.
      fold (char_eq_i "/" l). now rewrite char_eq_i_slash, He.
    + destruct (char_eq_i l "/"); reflexivity.
  - change (String c p +:+ "/") with (String c (p +:+ "/")).
    cbn [match_literal char_eq]. destruct (char_eq_i l c); [|reflexivity].
    rewrite (IH p (ends_with_slash_tail _ _ He)).
    destruct (match_literal false lit p) as [[pre rest]|]; reflexivity.
Qed.

Lemma at_boundary_snoc (rest : string) :
  at_boundary (rest +:+ "/") = at_boundary rest.
Proof. destruct rest; reflexivity. Qed.

Lemma literal_snoc (lit p : string) :
  parse lit = Some [Str lit] ->
  ends_with_slash lit = false ->
  params <$> matchPath (p +:+ "/") lit false false false
  = params <$> matchPath p lit false false false.
Proof.
  intros Hp He. rewrite !(matchPath_literal _ _ Hp He).
  rewrite (match_literal_snoc _ _ He).
  destruct (match_literal false lit p) as [[pre rest]|]; [|reflexivity].
  rewrite at_boundary_snoc. destruct (at_boundary rest); reflexivity.
Qed.

Lemma root_snoc (p : string) :
  p <> "/" ->
  params <$> matchPath (p +:+ "/") "/" true false false
  = params <$> matchPath p "/" true false false.
Proof.
  intros Hne. destruct p as [|a [|b s]].
  - reflexivity.
  - change (String a "" +:+ "/") with (String a "/").
    rewrite root_miss, matchPath_root. cbn [String.eqb orb].
    destruct (Ascii.eqb_spec a "/") as [->|_]; [contradiction|reflexivity].
  - change (String a (String b s) +:+ "/")
      with (String a (String b (s +:+ "/"))).
    now rewrite !root_miss.
Qed.

(** Two ways of cutting a text that ends in a delimiter. *)
Lemma snoc_split (a b c : string) :
  a +:+ "/" = b +:+ c ->
  (c = "" /\ b = a +:+ "/") \/ (exists c', c = c' +:+ "/" /\ a = b +:+ c').
Proof.
  revert a. induction b as [|x b IH]; intros a H.
  - right. exists a. split; [now symmetry|reflexivity].
  - destruct a as [|y a].
    + change ("/" = String x (b +:+ c)) in H. injection H as <- H.
      destruct b; [|discriminate]. change ("" = c) in H. subst c.
      left. split; reflexivity.
    + change (String y (a +:+ "/") = String x (b +:+ c)) in H.
      injection H as -> H. destruct (IH a H) as [[-> ->]|(c' & -> & ->)].
      * left. split; reflexivity.
      * right. exists c'. split; reflexivity.
Qed.

Lemma ends_with_slash_snoc (a : string) : ends_with_slash (a +:+ "/") = true.
Proof.
  induction a as [|x a IH]; [reflexivity|].
  change (ends_with_slash (String x (a +:+ "/")) = true).
  destruct a; [reflexivity|exact IH].
Qed.

Lemma ends_with_slash_segment (a X : string) :
  is_segment X = true -> ends_with_slash (a +:+ X) = false.
Proof.
  unfold is_segment. intros H. apply andb_true_iff in H as [Hne Hns].
  destruct X as [|x X]; [discriminate|clear Hne].
  induction a as [|y a IH].
  - change (ends_with_slash (String x X) = false).
    revert x Hns. induction X as [|x' X IHX]; intros x Hns; simpl in Hns;
      apply andb_true_iff in Hns as [Hx Hns].
    + simpl. now apply negb_true_iff.
    + change (ends_with_slash (String x' X) = false). now apply IHX.
  - change (ends_with_slash (String y (a +:+ String x X)) = false).
    destruct a; exact IH.
Qed.

Lemma order_snoc (p : string) :
  params <$> matchPath (p +:+ "/") "/order/:orderId" false false false
  = params <$> matchPath p "/order/:orderId" false false false.
Proof.
  destruct (matchPath p "/order/:orderId" false false false) as [m|] eqn:Hm.
  - destruct (order_match_inv _ _ Hm) as (pre & X & rest & -> & Hi & HX & Hr).
    rewrite (order_hit_exact pre X rest Hi HX Hr) in Hm. injection Hm as <-.
    rewrite !append_assoc.
    rewrite (order_hit_exact pre X (rest +:+ "/") Hi HX)
      by now rewrite at_boundary_snoc.
    reflexivity.
  - destruct (matchPath (p +:+ "/") "/order/:orderId" false false false)
      as [m'|] eqn:Hm'; [exfalso|reflexivity].
    destruct (order_match_inv _ _ Hm') as (pre & X & rest & E & Hi & HX & Hr).
    rewrite <- !append_assoc in E.
    destruct (snoc_split _ _ _ E) as [[-> Eb]|(rest' & -> & ->)].
    + pose proof (ends_with_slash_snoc p) as Hs. rewrite <- Eb in Hs.
      rewrite (ends_with_slash_segment _ X HX) in Hs. discriminate.
    + rewrite !append_assoc in Hm.
      rewrite (order_hit_exact pre X rest' Hi HX) in Hm; [discriminate|].
      now rewrite <- at_boundary_snoc.
Qed.

(** On every entry of the table a delimiter appended to the path leaves
    the outcome of matching and the parameters as they were. *)
Lemma child_match_snoc (r : RouteProps component) loc1 loc2 :
  In r routes ->
  pathname loc1 <> "/" ->
  pathname loc2 = pathname loc1 +:+ "/" ->
  params <$> child_match r loc2 = params <$> child_match r loc1.
Proof.
  intros Hr Hne Hp.
  destruct Hr as [<-|[<-|[<-|[<-|[<-|[]]]]]];
    rewrite !child_match_route by reflexivity; rewrite Hp.
  - now apply root_snoc.
  - now apply literal_snoc.
  - now apply literal_snoc.
  - now apply literal_snoc.
  - apply order_snoc.
Qed.

Lemma Route_shown (r : RouteProps component) loc1 loc2 (m1 m2 : match_) :
  params m2 = params m1 ->
  shown_of <$> Route r loc2 m2 = shown_of <$> Route r loc1 m1.
Proof.
  intros H. unfold Route. destruct (route_children r); [reflexivity|].
  destruct (route_component r); [|reflexivity]. cbn. now rewrite H.
Qed.

(** X10. Except at the root, a delimiter appended to the path changes
    nothing a user sees: the same page with the same parameters, the same
    text, or nothing still. *)
Theorem trailing_delimiter_keeps_view loc1 loc2 :
  pathname loc1 <> "/" ->
  pathname loc2 = pathname loc1 +:+ "/" ->
  shown_of <$> render loc2 = shown_of <$> render loc1.
Proof.
  intros Hne Hp.
  destruct (Switch routes loc1) as [[r m]|] eqn:Hs.
  - destruct (Switch_Some_In _ _ _ _ Hs) as [Hr Hm].
    pose proof (child_match_snoc r loc1 loc2 Hr Hne Hp) as Hc.
    rewrite Hm in Hc.
    destruct (child_match r loc2) as [m2|] eqn:Hm2; [|discriminate].
    injection Hc as Hc.
    rewrite (render_hit r loc1 m Hr Hm), (render_hit r loc2 m2 Hr Hm2).
    now apply Route_shown.
  - assert (Hs2 : Switch routes loc2 = None).
    { apply Switch_None. apply Switch_None in Hs.
      rewrite List.Forall_forall in Hs |- *. intros r Hr.
      pose proof (child_match_snoc r loc1 loc2 Hr Hne Hp) as Hc.
      rewrite (Hs r Hr) in Hc.
      destruct (child_match r loc2); [discriminate|reflexivity]. }
    unfold render. now rewrite Hs, Hs2.
Qed.

Lemma trailing_delimiter_witness :
  shown_of <$> render (at_path "/order/42/")
  = shown_of <$> render (at_path "/order/42").
Proof.
  apply (trailing_delimiter_keeps_view
           (at_path "/order/42") (at_path "/order/42/")).
  - discriminate.
  - reflexivity.
Defined.

End TrailingDelimiter.

(** ** The characterisations at sample paths *)

Section Samples.

Lemma switch_selects_witness :
  Switch routes (at_path "/book") =
  Some (route false "/book" (Some BookPage) None,
        {| path := "/book"; url := "/book"; isExact := true; params := ∅ |}).
Proof.
  apply (proj2 (switch_selects_exactly_the_matching_route
                  (at_path "/book")
                  (route false "/book" (Some BookPage) None)
                  {| path := "/book"; url := "/book"; isExact := true;
                     params := ∅ |})).
  split; [do 3 right; now left|reflexivity].
Defined.

Lemma render_nothing_witness : render (at_path "/order//42") = None.
Proof.
  apply (proj2 (render_nothing_iff_no_route_matches (at_path "/order//42"))).
  repeat constructor.
Defined.

Lemma user_gen_view_witness :
  render (at_path "") =
  Some (CreateElement UserGenPage (at_path "")
          {| path := "/"; url := "/"; isExact := true; params := ∅ |}).
Proof.
  apply (proj2 (user_gen_view_iff_root (at_path "") (at_path "")
                  {| path := "/"; url := "/"; isExact := true;
                     params := ∅ |})).
  repeat split. now left.
Defined.

Lemma static_text_witness :
  render (at_path "/HOME/") =
  Some (Children (Element "p" "You are at the start page")).
Proof.
  apply (proj2 (static_text_iff_home_segment (at_path "/HOME/")
                  (Element "p" "You are at the start page"))).
  split; [reflexivity|]. exists "/HOME", "/". repeat split.
Defined.

Lemma maker_view_witness :
  render (at_path "/Make/") =
  Some (CreateElement MakerPage (at_path "/Make/")
          {| path := "/make"; url := "/Make/"; isExact := true;
             params := ∅ |}).
Proof.
  apply (proj2 (maker_view_iff_make_segment (at_path "/Make/")
                  (at_path "/Make/")
                  {| path := "/make"; url := "/Make/"; isExact := true;
                     params := ∅ |})).
  split; [reflexivity|]. exists "/Make", "/". repeat split.
Defined.

Lemma book_view_witness :
  render (at_path "/BOOK/list") =
  Some (CreateElement BookPage (at_path "/BOOK/list")
          {| path := "/book"; url := "/BOOK"; isExact := false;
             params := ∅ |}).
Proof.
  apply (proj2 (book_view_iff_book_segment (at_path "/BOOK/list")
                  (at_path "/BOOK/list")
                  {| path := "/book"; url := "/BOOK"; isExact := false;
                     params := ∅ |})).
  split; [reflexivity|]. exists "/BOOK", "/list". repeat split.
Defined.

Lemma order_view_witness :
  render (at_path "/Order/Ab12/") =
  Some (CreateElement OrderPage (at_path "/Order/Ab12/")
          {| path := "/order/:orderId"; url := "/Order/Ab12/";
             isExact := true; params := {[ "orderId" := "Ab12" ]} |}).
Proof.
  apply (proj2 (order_view_iff_order_segment (at_path "/Order/Ab12/")
                  (at_path "/Order/Ab12/")
                  {| path := "/order/:orderId"; url := "/Order/Ab12/";
                     isExact := true;
                     params := {[ "orderId" := "Ab12" ]} |})).
  split; [reflexivity|]. exists "/Order", "Ab12", "/". repeat split.
Defined.

End Samples.
